(** * HROne JSON schema builder: the field tree and its serializer

    A model of [frontend/src/components/cpy.js]: the field nodes built by
    [createNewField], the edit handlers of [SchemaFieldComponent] and
    [SchemaBuilder], and [convertToJSON], which turns the field tree into the
    sample document shown in the preview. *)

From Stdlib Require Import Ascii String.
From stdpp Require Import gmap strings list fin_maps.

#[local] Set Warnings "-register-all".
#[local] Open Scope string_scope.
#[local] Open Scope list_scope.

(** ** Data model *)

(** A property slot of a JS object.  [createNewField] writes
    [children: undefined] (the property is there, its value is [undefined]),
    [handleTypeChange] runs [delete updatedField.children] (the property is
    gone): the two are different objects, so both are kept apart here. *)
Inductive Slot (A : Type) : Type :=
| Absent
| Undefined
| Value (a : A).
Arguments Absent {A}.
Arguments Undefined {A}.
Arguments Value {A} a.

(** A field object.  Strings are taken with one character per code unit, in
    the range 0..255.  [type] is the string the code compares with [===];
    [collapsed] is a boolean or is missing after a [delete]. *)
Inductive Field : Type := mkField {
  id : string;
  key : string;
  type : string;
  children : Slot (list Field);
  collapsed : option bool
}.

(** The object spreads [{...field, p: v}] of the handlers. *)
Definition with_key (field : Field) (k : string) : Field :=
  mkField (id field) k (type field) (children field) (collapsed field).
Definition with_type (field : Field) (t : string) : Field :=
  mkField (id field) (key field) t (children field) (collapsed field).
Definition with_children (field : Field) (c : Slot (list Field)) : Field :=
  mkField (id field) (key field) (type field) c (collapsed field).
Definition with_collapsed (field : Field) (c : option bool) : Field :=
  mkField (id field) (key field) (type field) (children field) c.

(** The values [convertToJSON] builds: the two defaults and nested objects.
    An object is given by its own properties. *)
Inductive Json : Type :=
| JString (s : string)
| JNumber (n : Z)
| JObject (own : gmap string Json).

(** JS truthiness of the two slots the code tests. *)
Definition truthy_children (c : Slot (list Field)) : bool :=
  match c with Value _ => true | _ => false end.
Definition truthy_collapsed (c : option bool) : bool :=
  match c with Some b => b | None => false end.

(** [field.children || []] *)
Definition children_or_empty (field : Field) : list Field :=
  match children field with Value ch => ch | _ => [] end.

(** ** Strings: [trim] and [substr] *)

(** White space and line terminators of ECMAScript among the code units
    below 256: TAB, LF, VT, FF, CR, SP and NBSP. *)
Definition isWhiteSpace (c : ascii) : bool :=
  let n := nat_of_ascii c in
  (Nat.leb 9 n && Nat.leb n 13) || Nat.eqb n 32 || Nat.eqb n 160.

Fixpoint trimStart (s : string) : string :=
  match s with
  | String c s' => if isWhiteSpace c then trimStart s' else s
  | EmptyString => EmptyString
  end.

Fixpoint trimEnd (s : string) : string :=
  match s with
  | String c s' =>
      match trimEnd s' with
      | EmptyString => if isWhiteSpace c then EmptyString else String c EmptyString
      | t => String c t
      end
  | EmptyString => EmptyString
  end.

(** [s.trim()] *)
Definition trim (s : string) : string := trimEnd (trimStart s).

(** What it is for [trim] to have done its work: the characters removed are
    all white space, and the result neither starts nor ends with one. *)
Fixpoint allWhiteSpace (s : string) : bool :=
  match s with
  | String c s' => isWhiteSpace c && allWhiteSpace s'
  | EmptyString => true
  end.

Definition startsWithWhiteSpace (s : string) : bool :=
  match s with
  | String c _ => isWhiteSpace c
  | EmptyString => false
  end.

Fixpoint endsWithWhiteSpace (s : string) : bool :=
  match s with
  | String c EmptyString => isWhiteSpace c
  | String _ s' => endsWithWhiteSpace s'
  | EmptyString => false
  end.

(** A string is truthy unless it is empty. *)
Definition truthy_string (s : string) : bool :=
  match s with EmptyString => false | _ => true end.

(** ** Utility functions *)

(** [generateId = () => Math.random().toString(36).substr(2, 9)].
    [Math.random] is the one effect of the module; its outcome enters as the
    argument [r], the base-36 text of the number drawn (such as
    ["0.4fzyo82mvyr"]), and the code keeps at most nine characters of it from
    index 2 on. *)
Definition generateId (r : string) : string := substring 2 9 r.

(** [createNewField(type = 'String')]; [r] is the draw of its [generateId()]. *)
Definition createNewField (r : string) (type : string) : Field :=
  {| id := generateId r;
     key := "";
     type := type;
     children := if decide (type = "Nested") then Value [] else Undefined;
     collapsed := Some false |}.

(** [result[k] = v] on an object made by the literal [{}].  The object
    inherits from [Object.prototype], whose one accessor property is
    [__proto__]: an assignment to that key runs the inherited setter, which
    returns at once for a string or a number and changes the prototype for
    an object; no own property appears in either case.  Every other key gets
    an own property with the value, replacing an earlier one. *)
Definition assign (result : gmap string Json) (k : string) (v : Json)
  : gmap string Json :=
  if decide (k = "__proto__") then result else <[k:=v]> result.

(** The body of the [forEach] callback of [convertToJSON], with the recursive
    call on [field.children] unrolled into the fold it runs. *)
Fixpoint visit (field : Field) (result : gmap string Json) {struct field}
  : gmap string Json :=
  if decide (type field = "String") then
    assign result (key field) (JString "string")
  else if decide (type field = "Number") then
    assign result (key field) (JNumber 42)
  else if decide (type field = "Nested") then
    match children field with
    | Value ch =>
        assign result (key field)
          (JObject (fold_left (fun r f => visit f r) ch ∅))
    | _ => result
    end
  else result.

(** [convertToJSON(fields)]: the own properties of the object returned. *)
Definition convertToJSON (fields : list Field) : gmap string Json :=
  fold_left (fun result field => visit field result) fields ∅.

(** The ids of a node and of everything below it, and of a whole tree. *)
Fixpoint ids (field : Field) : list string :=
  id field ::
  match children field with
  | Value ch => ch ≫= ids
  | _ => []
  end.

Definition treeIds (fields : list Field) : list string := fields ≫= ids.

(** ** The handlers of [SchemaFieldComponent]

    A handler is given by the argument it passes to the [onUpdate] of its
    component: [Some] of the replacement field, or [None] when the handler
    returns without calling [onUpdate]. *)

(** [handleKeyUpdate], with [editValue] the text of the input.  When the
    trimmed text is empty the handler calls [setEditValue(field.key)] and
    leaves the field alone. *)
Definition handleKeyUpdate (field : Field) (editValue : string) : option Field :=
  if truthy_string (trim editValue)
  then Some (with_key field (trim editValue))
  else None.

(** The text of the input after [handleKeyUpdate]. *)
Definition editValue_after (field : Field) (editValue : string) : string :=
  if truthy_string (trim editValue) then editValue else key field.

Definition handleTypeChange (field : Field) (newType : string) : Field :=
  let updatedField := with_type field newType in
  if decide (newType = "Nested")
  then with_collapsed (with_children updatedField (Value [])) (Some false)
  else with_collapsed (with_children updatedField Absent) None.

(** [r] is the draw of the [createNewField()] inside. *)
Definition handleAddNestedField (field : Field) (r : string) : option Field :=
  if decide (type field = "Nested") then
    let newChildren := children_or_empty field ++ [createNewField r "String"] in
    Some (with_children field (Value newChildren))
  else None.

(** [newChildren[index] = updatedChild] on a copy of [field.children].  The
    handler is only ever called from the closure made for a rendered child,
    so [index] is below the length and the assignment replaces an element
    (see [handleNestedFieldUpdate_lookup]); the model gives the array back
    unchanged for an index beyond it, where JS would grow the array. *)
Definition handleNestedFieldUpdate (field : Field) (index : nat)
    (updatedChild : Field) : option Field :=
  match children field with
  | Value ch =>
      let newChildren := <[index:=updatedChild]> ch in
      Some (with_children field (Value newChildren))
  | _ => None
  end.

(** [field.children.filter((_, i) => i !== index)] *)
Definition handleNestedFieldDelete (field : Field) (index : nat) : option Field :=
  match children field with
  | Value ch =>
      let newChildren := delete index ch in
      Some (with_children field (Value newChildren))
  | _ => None
  end.

(** [{ ...field, collapsed: !field.collapsed }]; [!undefined] is [true]. *)
Definition toggleCollapsed (field : Field) : Field :=
  with_collapsed field (Some (negb (truthy_collapsed (collapsed field)))).

(** The condition under which the component renders its children,
    [field.type === 'Nested' && field.children && !field.collapsed]. *)
Definition rendersChildren (field : Field) : bool :=
  bool_decide (type field = "Nested")
  && truthy_children (children field)
  && negb (truthy_collapsed (collapsed field)).

(** ** The handlers of [SchemaBuilder] *)

(** As for [handleNestedFieldUpdate], [index] is that of a rendered field. *)
Definition handleFieldUpdate (fields : list Field) (index : nat)
    (updatedField : Field) : list Field :=
  <[index:=updatedField]> fields.

Definition handleFieldDelete (fields : list Field) (index : nat) : list Field :=
  delete index fields.

Definition handleAddField (fields : list Field) (r : string) : list Field :=
  fields ++ [createNewField r "String"].

Definition addFieldWithType (fields : list Field) (r : string) (type : string)
  : list Field :=
  fields ++ [createNewField r type].

(** ** [JSONSchemaBuilder] *)

(** [handleReset] sets the state to the value it had at the start,
    [[createNewField('String')]]. *)
Definition handleReset (r : string) : list Field := [createNewField r "String"].

(** ** Events of an editing session *)

(** What the user can do on one rendered field.  The type selector offers
    ['String'], ['Number'] and ['Nested']; the handlers are modelled for any
    string. *)
Inductive Action : Type :=
| KeyUpdate (editValue : string)
| TypeChange (newType : string)
| AddNestedField (r : string)
| ToggleCollapsed
| Delete.

(** What the user can do on the page: the three add buttons, the reset
    button, and an action on the field found by following child indices from
    the root.  The random draw of a creation comes with the event. *)
Inductive Event : Type :=
| AddField (r : string)
| AddFieldWithType (type : string) (r : string)
| Reset (r : string)
| OnField (path : list nat) (a : Action).

(** The action of a field on itself.  The collapse button and the add button
    are rendered for [Nested] fields only; a delete is carried out by the
    owner of the sequence. *)
Definition ownAction (field : Field) (a : Action) : option Field :=
  match a with
  | KeyUpdate editValue => handleKeyUpdate field editValue
  | TypeChange newType => Some (handleTypeChange field newType)
  | AddNestedField r => handleAddNestedField field r
  | ToggleCollapsed =>
      if decide (type field = "Nested") then Some (toggleCollapsed field) else None
  | Delete => None
  end.

(** The argument the component of [field] passes to its [onUpdate] when the
    action fires in the descendant reached by [path]: each component on the
    way wraps the update of its child in [handleNestedFieldUpdate], and the
    parent of a deleted field runs [handleNestedFieldDelete]. *)
Fixpoint fieldAction (field : Field) (path : list nat) (a : Action)
  : option Field :=
  match path with
  | [] => ownAction field a
  | index :: path' =>
      if rendersChildren field then
        child ← children_or_empty field !! index;
        match path', a with
        | [], Delete => handleNestedFieldDelete field index
        | _, _ =>
            updatedChild ← fieldAction child path' a;
            handleNestedFieldUpdate field index updatedChild
        end
      else None
  end.

(** The new value of the [fields] state after an event, or [None] when the
    state is not set: the event has no rendered target, or its handler
    returned without an update. *)
Definition step (fields : list Field) (e : Event) : option (list Field) :=
  match e with
  | AddField r => Some (handleAddField fields r)
  | AddFieldWithType type r => Some (addFieldWithType fields r type)
  | Reset r => Some (handleReset r)
  | OnField [] _ => None
  | OnField (index :: path) a =>
      field ← fields !! index;
      match path, a with
      | [], Delete => Some (handleFieldDelete fields index)
      | _, _ =>
          updatedField ← fieldAction field path a;
          Some (handleFieldUpdate fields index updatedField)
      end
  end.

(** A session: the state after a sequence of events. *)
Fixpoint run (events : list Event) (fields : list Field) : list Field :=
  match events with
  | [] => fields
  | e :: events' => run events' (default fields (step fields e))
  end.

(** The id drawn by [generateId] in the course of an action or an event, if
    it creates a field. *)
Definition actionDraw (a : Action) : list string :=
  match a with
  | AddNestedField r => [generateId r]
  | _ => []
  end.

Definition drawn (e : Event) : list string :=
  match e with
  | AddField r | AddFieldWithType _ r | Reset r => [generateId r]
  | OnField _ a => actionDraw a
  end.

(** Toggling the collapse flag of the [Nested] node at [path], whether or not
    the node is on screen; the ancestors are rebuilt as
    [handleNestedFieldUpdate] rebuilds them. *)
Fixpoint toggleIn (field : Field) (path : list nat) : option Field :=
  match path with
  | [] =>
      if decide (type field = "Nested") then Some (toggleCollapsed field) else None
  | index :: path' =>
      child ← children_or_empty field !! index;
      updatedChild ← toggleIn child path';
      handleNestedFieldUpdate field index updatedChild
  end.

Definition toggleAt (fields : list Field) (path : list nat)
  : option (list Field) :=
  match path with
  | [] => None
  | index :: path' =>
      field ← fields !! index;
      updatedField ← toggleIn field path';
      Some (handleFieldUpdate fields index updatedField)
  end.

(** The spec's [setKey(node, newKey)]: the field its owner holds once
    [handleKeyUpdate] has run on the text [newKey], which is the replacement
    when [onUpdate] was called and the field itself when it was not. *)
Definition setKey (node : Field) (newKey : string) : Field :=
  default node (handleKeyUpdate node newKey).

(** The value [convertToJSON] assigns for a field, if it assigns one: the
    three branches of its callback, read off without the assignment. *)
Definition entry (field : Field) : option Json :=
  if decide (type field = "String") then Some (JString "string")
  else if decide (type field = "Number") then Some (JNumber 42)
  else if decide (type field = "Nested") then
    match children field with
    | Value ch => Some (JObject (convertToJSON ch))
    | _ => None
    end
  else None.

(** ** The serializer in the words of the specification

    [serialize] goes through the nodes in order and maps the key of a
    [String] node to ["string"], of a [Number] node to [42] and of a
    container to the serialization of its children, a later entry replacing
    an earlier one under the same key.  It is stated for the nodes of the
    data model, which [wellFormed] singles out: the kind is one of the three
    and a container has its children. *)
Fixpoint serialize_node (node : Field) (doc : gmap string Json) {struct node}
  : gmap string Json :=
  if decide (type node = "String") then <[key node := JString "string"]> doc
  else if decide (type node = "Number") then <[key node := JNumber 42]> doc
  else if decide (type node = "Nested") then
    match children node with
    | Value ch =>
        <[key node := JObject (fold_left (fun d n => serialize_node n d) ch ∅)]> doc
    | _ => <[key node := JObject ∅]> doc
    end
  else doc.

Definition serialize (siblings : list Field) : gmap string Json :=
  fold_left (fun doc node => serialize_node node doc) siblings ∅.

Fixpoint wellFormed (node : Field) : bool :=
  match children node with
  | Value ch => bool_decide (type node = "Nested") && forallb wellFormed ch
  | _ => bool_decide (type node = "String") || bool_decide (type node = "Number")
  end.

(** No node of the subtree is keyed [__proto__]. *)
Fixpoint plainKeys (node : Field) : bool :=
  negb (bool_decide (key node = "__proto__"))
  && match children node with
     | Value ch => forallb plainKeys ch
     | _ => true
     end.

(** ** Further parts of the component *)

(** [array.filter((_, i) => p(i))]: the elements whose index passes the
    test, in order; [i] is the index of the first element of [l]. *)
Fixpoint filterIndex {A : Type} (p : nat → bool) (i : nat) (l : list A)
  : list A :=
  match l with
  | [] => []
  | x :: l' =>
      if p i then x :: filterIndex p (S i) l' else filterIndex p (S i) l'
  end.

(** The counts of the footer: [fields.length] and
    [fields.filter(f => f.type === t).length]. *)
Definition totalFields (fields : list Field) : nat := length fields.

Definition countOfType (t : string) (fields : list Field) : nat :=
  length (filter (λ f, type f = t) fields).

(** The types the page can hand to the handlers: the three options of the
    selector, and ['Number'] and ['Nested'] on the two typed add buttons. *)
Definition typeOption (t : string) : bool :=
  bool_decide (t = "String") || bool_decide (t = "Number")
  || bool_decide (t = "Nested").

(** Events as the page can raise them, given what type a creation or a
    selection may carry and what key (after trimming) a rename may carry. *)
Definition eventOk (okType okKey : string → bool) (e : Event) : bool :=
  match e with
  | AddFieldWithType t _ => okType t
  | OnField _ (TypeChange t) => okType t
  | OnField _ (KeyUpdate editValue) => okKey (trim editValue)
  | _ => true
  end.

Definition anyString (s : string) : bool := true.

(** The events of the page: types among the three options, any key. *)
Definition offered (e : Event) : bool := eventOk typeOption anyString e.

(** The events of the page that name no field [__proto__]. *)
Definition offeredPlain (e : Event) : bool :=
  eventOk typeOption (λ k, negb (bool_decide (k = "__proto__"))) e.

(** The shape the handlers keep: a node has a children array exactly when
    its type is ['Nested'], and then it has a collapsed flag. *)
Fixpoint shaped (node : Field) : bool :=
  match children node with
  | Value ch =>
      bool_decide (type node = "Nested")
      && bool_decide (is_Some (collapsed node))
      && forallb shaped ch
  | _ => negb (bool_decide (type node = "Nested"))
  end.

(** No key of the subtree starts or ends with white space. *)
Fixpoint trimmedKeys (node : Field) : bool :=
  negb (startsWithWhiteSpace (key node))
  && negb (endsWithWhiteSpace (key node))
  && match children node with
     | Value ch => forallb trimmedKeys ch
     | _ => true
     end.

(** The entry [convertToJSON] leaves under [k]: that of the last field keyed
    [k] that assigns one. *)
Definition lastEntry (k : string) (fields : list Field) : option Json :=
  last (omap (λ f, if decide (key f = k) then entry f else None) fields).

(** Closed decidable statements, settled by evaluation. *)
Ltac decide_closed :=
  cbv zeta;
  lazymatch goal with
  | |- ¬ ?P => apply (bool_decide_eq_false_1 P); vm_compute; reflexivity
  | |- ?P => apply (bool_decide_eq_true_1 P); vm_compute; reflexivity
  end.

(** ** Field operations *)

Lemma truthy_string_empty (s : string) : truthy_string s = false ↔ s = "".
Proof. destruct s; simpl; split; congruence. Qed.

Lemma handleKeyUpdate_unfold (field : Field) (editValue : string) :
  handleKeyUpdate field editValue =
  if decide (trim editValue = "") then None
  else Some (with_key field (trim editValue)).
Proof.
  unfold handleKeyUpdate.
  destruct (decide (trim editValue = "")) as [-> | Hne]; [done |].
  by destruct (trim editValue).
Qed.

(** C5: retyping any node to [Nested], a [Nested] node with children
    included, gives a node whose children are the empty sequence and whose
    collapsed flag is false; the children it had are gone. *)
Theorem handleTypeChange_Nested_resets (field : Field) :
  children (handleTypeChange field "Nested") = Value []
  ∧ collapsed (handleTypeChange field "Nested") = Some false
  ∧ type (handleTypeChange field "Nested") = "Nested"
  ∧ ids (handleTypeChange field "Nested") = [id field].
Proof. by destruct field. Qed.

(** C5 on a container that has a child: the child is dropped. *)
Example handleTypeChange_Nested_drops_child :
  let child := createNewField "0.b2k9x0c1dq7" "Number" in
  let node := mkField "a1" "address" "Nested" (Value [child]) (Some true) in
  handleTypeChange node "Nested" = mkField "a1" "address" "Nested" (Value []) (Some false).
Proof. reflexivity. Qed.

(** C6, as the code has it: [createNewField] returns a node with the id that
    [generateId] drew and the empty key; its children are the empty sequence
    exactly for [Nested] and [undefined] otherwise; its collapsed flag is
    false for every type. *)
Theorem createNewField_spec (r type0 : string) :
  id (createNewField r type0) = generateId r
  ∧ key (createNewField r type0) = ""
  ∧ type (createNewField r type0) = type0
  ∧ (children (createNewField r type0) = Value [] ↔ type0 = "Nested")
  ∧ children (createNewField r type0)
    = (if decide (type0 = "Nested") then Value [] else Undefined)
  ∧ collapsed (createNewField r type0) = Some false.
Proof.
  unfold createNewField; simpl. repeat split; try done.
  - case_decide; [done | discriminate].
  - intros ->. by rewrite decide_True.
Qed.

(** C6 fails as stated: a [String] field is created with [collapsed: false]
    although it is no container, and two different draws can give the same
    id, so the id is not fresh by construction. *)
Lemma createNewField_collapsed_on_primitive :
  (collapsed (createNewField "0.4fzyo82mvyr" "String") = Some false
   ∧ "String" ≠ "Nested")
  ∧ ("0.4fzyo82mvyr" ≠ "0.4fzyo82mvzz"
     ∧ id (createNewField "0.4fzyo82mvyr" "String")
       = id (createNewField "0.4fzyo82mvzz" "String")).
Proof. repeat split; done. Qed.

Lemma trimStart_spec (s : string) :
  ∃ pre, s = pre +:+ trimStart s
         ∧ allWhiteSpace pre = true
         ∧ startsWithWhiteSpace (trimStart s) = false.
Proof.
  induction s as [| c s (pre & Hs & Hpre & Hstart)]; simpl.
  - by exists "".
  - destruct (isWhiteSpace c) eqn:Hc.
    + exists (String c pre). simpl. rewrite Hc, Hpre.
      split; [| done]. change (String c s = String c (pre +:+ trimStart s)).
      by rewrite <- Hs.
    + exists "". by simpl.
Qed.

Lemma allWhiteSpace_ends (s : string) (c : ascii) :
  allWhiteSpace (String c s) = true → endsWithWhiteSpace (String c s) = true.
Proof.
  revert c. induction s as [| d s IH]; intros c; simpl in *.
  - by rewrite andb_true_r.
  - intros [_ Hs]%andb_prop. by apply IH.
Qed.

Lemma trimEnd_spec (s : string) :
  ∃ post, s = trimEnd s +:+ post
          ∧ allWhiteSpace post = true
          ∧ endsWithWhiteSpace (trimEnd s) = false
          ∧ startsWithWhiteSpace (trimEnd s)
            = startsWithWhiteSpace s && negb (allWhiteSpace s).
Proof.
  induction s as [| c s (post & Hs & Hpost & Hend & Hstart)]; simpl.
  - by exists "".
  - destruct (trimEnd s) as [| d t] eqn:Ht.
    + change (s = post) in Hs. subst s.
      destruct (isWhiteSpace c) eqn:Hc; simpl.
      * exists (String c post). simpl. by rewrite Hc, Hpost.
      * exists post. by rewrite Hc.
    + exists post. split; [| split; [done | split; [done |]]].
      * change (String c s = String c (String d t +:+ post)). by rewrite <- Hs.
      * simpl. destruct (isWhiteSpace c); simpl; [| done].
        destruct (allWhiteSpace s) eqn:Hall; [| done].
        rewrite Hs in Hall.
        assert (allWhiteSpace (String d t) = true) as Hdt.
        { clear -Hall. revert Hall. generalize (String d t). intros u.
          induction u as [| e u IH]; simpl; [done |].
          intros [-> Hu]%andb_prop. by rewrite IH. }
        apply allWhiteSpace_ends in Hdt. congruence.
Qed.

(** [trim] removes white space at both ends and nothing else. *)
Lemma trim_spec (s : string) :
  ∃ pre post, s = pre +:+ trim s +:+ post
              ∧ allWhiteSpace pre = true
              ∧ allWhiteSpace post = true
              ∧ startsWithWhiteSpace (trim s) = false
              ∧ endsWithWhiteSpace (trim s) = false.
Proof.
  destruct (trimStart_spec s) as (pre & Hs & Hpre & Hstart).
  destruct (trimEnd_spec (trimStart s)) as (post & Ht & Hpost & Hend & Hhead).
  exists pre, post. unfold trim.
  rewrite <- Ht, <- Hs. repeat split; try done.
  by rewrite Hhead, Hstart.
Qed.

(** C7: [setKey] trims the white space around the text; an empty result is
    rejected and the node stays as it is, any other result becomes the key;
    so the empty and the blank text are rejected and ["  x "] gives the key
    ["x"]. *)
Theorem setKey_trims_or_rejects (node : Field) (newKey : string) :
  (∃ pre post, newKey = pre +:+ trim newKey +:+ post
               ∧ allWhiteSpace pre = true
               ∧ allWhiteSpace post = true
               ∧ startsWithWhiteSpace (trim newKey) = false
               ∧ endsWithWhiteSpace (trim newKey) = false)
  ∧ setKey node newKey
    = (if decide (trim newKey = "") then node
       else with_key node (trim newKey))
  ∧ key (setKey node newKey)
    = (if decide (trim newKey = "") then key node else trim newKey)
  ∧ editValue_after node newKey
    = (if decide (trim newKey = "") then key node else newKey)
  ∧ setKey node "" = node
  ∧ setKey node "   " = node
  ∧ key (setKey node "  x ") = "x".
Proof.
  split; [apply trim_spec |].
  unfold setKey, editValue_after. rewrite handleKeyUpdate_unfold.
  repeat split; try done.
  - by case_decide.
  - by case_decide.
  - case_decide as Ht; [by rewrite Ht | by destruct (trim newKey)].
Qed.

(** C8, as the code has it: retyping a primitive node to its own type keeps
    id, key and type and removes [children] and [collapsed]; the result is
    the original node exactly when the original has neither property. *)
Theorem handleTypeChange_same_primitive (field : Field)
    (Hprim : type field = "String" ∨ type field = "Number") :
  id (handleTypeChange field (type field)) = id field
  ∧ key (handleTypeChange field (type field)) = key field
  ∧ type (handleTypeChange field (type field)) = type field
  ∧ children (handleTypeChange field (type field)) = Absent
  ∧ collapsed (handleTypeChange field (type field)) = None
  ∧ (handleTypeChange field (type field) = field
     ↔ children field = Absent ∧ collapsed field = None).
Proof.
  destruct field as [i k t ch co]; simpl in *.
  unfold handleTypeChange; simpl.
  rewrite decide_False by (destruct Hprim; subst; discriminate).
  unfold with_collapsed, with_children, with_type; simpl.
  repeat split; try congruence.
  intros [-> ->]. reflexivity.
Qed.

Lemma handleTypeChange_same_primitive_witness :
  let field := handleTypeChange (createNewField "0.4fzyo82mvyr" "Nested") "Number" in
  (type field = "String" ∨ type field = "Number")
  ∧ handleTypeChange field (type field) = field.
Proof.
  split; [by right |].
  apply (handleTypeChange_same_primitive
           (handleTypeChange (createNewField "0.4fzyo82mvyr" "Nested") "Number"));
    [by right | by split].
Defined.

(** C8 fails as stated: a freshly created [String] field carries
    [collapsed: false] (and [children: undefined]); retyping it to [String]
    deletes both, so the result differs from the original. *)
Lemma handleTypeChange_same_primitive_differs :
  let node := createNewField "0.4fzyo82mvyr" "String" in
  type node = "String"
  ∧ collapsed node = Some false
  ∧ collapsed (handleTypeChange node (type node)) = None
  ∧ handleTypeChange node (type node) ≠ node.
Proof. repeat split; discriminate. Qed.

(** C9: retyping, renaming and collapsing each return a node with the id of
    the node they were given. *)
Theorem update_operations_keep_id (field : Field) (newType newKey : string) :
  id (handleTypeChange field newType) = id field
  ∧ id (setKey field newKey) = id field
  ∧ id (toggleCollapsed field) = id field.
Proof.
  split; [| split]; try done.
  - unfold handleTypeChange. by case_decide.
  - unfold setKey. rewrite handleKeyUpdate_unfold. by case_decide.
Qed.

(** ** The serializer *)

(** Induction on a field with the hypothesis available for every child. *)
Lemma Field_ind_deep (P : Field → Prop) :
  (∀ field, Forall P (children_or_empty field) → P field) →
  ∀ field, P field.
Proof.
  intros step. fix IH 1. intros field. apply step.
  destruct field as [i k t [| | ch] co]; simpl; try constructor.
  induction ch as [| c ch IHch]; constructor; [apply IH | exact IHch].
Qed.

Lemma visit_entry (field : Field) (result : gmap string Json) :
  visit field result =
  match entry field with
  | Some v => assign result (key field) v
  | None => result
  end.
Proof.
  destruct field as [i k t c co]. unfold entry. cbn.
  repeat case_decide; try done. by destruct c.
Qed.

Lemma convertToJSON_snoc (fields : list Field) (field : Field) :
  convertToJSON (fields ++ [field]) = visit field (convertToJSON fields).
Proof. unfold convertToJSON. by rewrite fold_left_app. Qed.

Lemma assign_lookup_ne (result : gmap string Json) (k k' : string) (v : Json) :
  k ≠ k' → assign result k v !! k' = result !! k'.
Proof. intros Hne. unfold assign. case_decide; [done |]. by rewrite lookup_insert_ne. Qed.

Lemma assign_lookup_eq (result : gmap string Json) (k : string) (v : Json) :
  k ≠ "__proto__" → assign result k v !! k = Some v.
Proof. intros Hne. unfold assign. rewrite decide_False by done. apply lookup_insert_eq. Qed.

Lemma assign_lookup_proto (result : gmap string Json) (k : string) (v : Json) :
  assign result k v !! "__proto__" = result !! "__proto__".
Proof.
  unfold assign. case_decide as Hk; [done |]. by rewrite lookup_insert_ne.
Qed.

(** Fields that assign nothing under [k] leave the entry of [k] alone. *)
Lemma visit_all_lookup_other (k : string) (fields : list Field) :
  Forall (λ m, key m ≠ k ∨ entry m = None) fields →
  ∀ result,
    fold_left (λ r f, visit f r) fields result !! k = result !! k.
Proof.
  induction 1 as [| m fields Hm _ IH]; intros result; simpl; [done |].
  rewrite IH, visit_entry.
  destruct Hm as [Hne | ->]; [| done].
  destruct (entry m); [by apply assign_lookup_ne | done].
Qed.

(** No field ever gets an own property [__proto__] into the result. *)
Lemma visit_all_lookup_proto (fields : list Field) (result : gmap string Json) :
  fold_left (λ r f, visit f r) fields result !! "__proto__"
  = result !! "__proto__".
Proof.
  revert result. induction fields as [| m fields IH]; intros result; simpl; [done |].
  rewrite IH, visit_entry. destruct (entry m); [apply assign_lookup_proto | done].
Qed.

(** Last write wins, for every key but [__proto__]: the entry of a key is
    that of the last field that assigns under it. *)
Lemma convertToJSON_last_write (before after : list Field) (field : Field)
    (v : Json) :
  key field ≠ "__proto__" →
  entry field = Some v →
  Forall (λ m, key m ≠ key field ∨ entry m = None) after →
  convertToJSON (before ++ field :: after) !! key field = Some v.
Proof.
  intros Hk Hv Hafter. unfold convertToJSON.
  rewrite fold_left_app. simpl.
  rewrite visit_all_lookup_other by done.
  rewrite visit_entry, Hv. by apply assign_lookup_eq.
Qed.

(** On the nodes of the data model, and away from the key [__proto__], the
    code computes the serialization of the specification. *)
Lemma visit_serialize_node (field : Field) :
  wellFormed field = true → plainKeys field = true →
  ∀ result, visit field result = serialize_node field result.
Proof.
  induction field as [field IH] using Field_ind_deep.
  destruct field as [i k t c co]; simpl in *.
  intros Hwf Hkeys result.
  apply andb_prop in Hkeys as [Hk Hkeys].
  apply negb_true_iff, bool_decide_eq_false in Hk.
  unfold assign. rewrite (decide_False (P := k = "__proto__")) by done.
  repeat case_decide; try done.
  destruct c as [| | ch]; simpl in *; try done.
  do 2 f_equal.
  generalize (∅ : gmap string Json).
  induction ch as [| m ch IHch]; intros acc; simpl; [done |].
  apply andb_prop in Hwf as [Hm Hwf]. apply andb_prop in Hkeys as [Hkm Hkeys].
  apply Forall_cons in IH as [IHm IH].
  rewrite IHm by done. by apply IHch.
Qed.

Lemma convertToJSON_serialize (fields : list Field) :
  forallb wellFormed fields = true → forallb plainKeys fields = true →
  convertToJSON fields = serialize fields.
Proof.
  unfold convertToJSON, serialize. generalize (∅ : gmap string Json).
  induction fields as [| m fields IH]; intros acc Hwf Hkeys; simpl in *; [done |].
  apply andb_prop in Hwf as [Hm Hwf]. apply andb_prop in Hkeys as [Hkm Hkeys].
  rewrite visit_serialize_node by done. by apply IH.
Qed.

Lemma convertToJSON_lookup_None (k : string) (fields : list Field) :
  Forall (λ m, key m ≠ k) fields → convertToJSON fields !! k = None.
Proof.
  intros Hk. unfold convertToJSON. rewrite visit_all_lookup_other; [done |].
  eapply Forall_impl; [exact Hk | by left].
Qed.

(** C1, at a key the code loses: the user adds a field and names it
    [__proto__].  The specification maps the key to ["string"]; the object
    built by [convertToJSON] has no property at all. *)
Theorem convertToJSON_loses_proto_key :
  let fields :=
    run [AddField "0.4fzyo82mvyr"; OnField [0] (KeyUpdate "__proto__")] [] in
  fields = [mkField "4fzyo82mv" "__proto__" "String" Undefined (Some false)]
  ∧ serialize fields !! "__proto__" = Some (JString "string")
  ∧ convertToJSON fields = ∅.
Proof. repeat split; by vm_compute. Qed.

(** C3, at the same key: two fields named [__proto__], a [String] and then a
    [Number].  The later one should give the key the entry [42]; the result
    has no entry under the key. *)
Theorem convertToJSON_proto_key_no_last_write :
  let fields :=
    run [AddField "0.4fzyo82mvyr"; AddFieldWithType "Number" "0.b2k9x0c1dq7";
         OnField [0] (KeyUpdate "__proto__"); OnField [1] (KeyUpdate "__proto__")] [] in
  fields = [mkField "4fzyo82mv" "__proto__" "String" Undefined (Some false);
            mkField "b2k9x0c1d" "__proto__" "Number" Undefined (Some false)]
  ∧ serialize fields !! "__proto__" = Some (JNumber 42)
  ∧ convertToJSON fields !! "__proto__" = None.
Proof. repeat split; by vm_compute. Qed.

(** The examples of the specification for the serializer. *)
Example convertToJSON_defaults :
  convertToJSON [mkField "i1" "a" "String" Undefined (Some false);
                 mkField "i2" "b" "Number" Undefined (Some false)]
  = <["b" := JNumber 42]> (<["a" := JString "string"]> ∅).
Proof. reflexivity. Qed.

Example convertToJSON_nested :
  convertToJSON [mkField "i1" "a" "Nested"
                   (Value [mkField "i2" "b" "Number" Undefined (Some false)])
                   (Some false)]
  = <["a" := JObject (<["b" := JNumber 42]> ∅)]> ∅.
Proof. reflexivity. Qed.

Example convertToJSON_duplicate_keys :
  convertToJSON [mkField "i1" "a" "String" Undefined (Some false);
                 mkField "i2" "a" "Number" Undefined (Some false)]
  = <["a" := JNumber 42]> ∅.
Proof. by vm_compute. Qed.

(** C10: a [Nested] field whose children are missing or undefined adds
    nothing to the result: the result is that of the sequence without the
    field, and the key has no entry unless another field brings one. *)
Theorem convertToJSON_skips_childless_Nested
    (before after : list Field) (field : Field) :
  type field = "Nested" →
  truthy_children (children field) = false →
  convertToJSON (before ++ field :: after) = convertToJSON (before ++ after)
  ∧ (Forall (λ m, key m ≠ key field) (before ++ after) →
     convertToJSON (before ++ field :: after) !! key field = None).
Proof.
  intros Htype Hch.
  assert (Hskip : convertToJSON (before ++ field :: after)
                  = convertToJSON (before ++ after)).
  { unfold convertToJSON. rewrite !fold_left_app. simpl. f_equal.
    rewrite visit_entry. unfold entry. rewrite Htype.
    repeat (case_decide; try done). by destruct (children field). }
  split; [exact Hskip |].
  intros Hothers. rewrite Hskip. by apply convertToJSON_lookup_None.
Qed.

Lemma convertToJSON_skips_childless_Nested_witness :
  let a := mkField "i1" "a" "String" Undefined (Some false) in
  let n := mkField "i2" "n" "Nested" Undefined (Some false) in
  (type n = "Nested" ∧ truthy_children (children n) = false)
  ∧ convertToJSON ([a] ++ n :: []) = convertToJSON ([a] ++ [])
  ∧ convertToJSON ([a] ++ n :: []) !! key n = None.
Proof.
  split; [by split |].
  pose proof (convertToJSON_skips_childless_Nested
                [mkField "i1" "a" "String" Undefined (Some false)] []
                (mkField "i2" "n" "Nested" Undefined (Some false))
                eq_refl eq_refl) as [Hskip Hnone].
  split; [exact Hskip |].
  apply Hnone. repeat constructor. simpl. discriminate.
Defined.

(** ** Collapsing *)

Lemma visit_all_insert (ch : list Field) (index : nat) (child u : Field) :
  ch !! index = Some child →
  (∀ result, visit u result = visit child result) →
  ∀ result,
    fold_left (λ r f, visit f r) (<[index:=u]> ch) result
    = fold_left (λ r f, visit f r) ch result.
Proof.
  intros Hchild Hsame. revert index Hchild.
  induction ch as [| c ch IH]; intros [| index] Hchild result; simpl in *;
    try done.
  - injection Hchild as ->. by rewrite Hsame.
  - by apply IH.
Qed.

Lemma handleNestedFieldUpdate_Some (field : Field) (index : nat) (u v : Field) :
  handleNestedFieldUpdate field index u = Some v →
  ∃ ch, children field = Value ch
        ∧ v = with_children field (Value (<[index:=u]> ch)).
Proof.
  unfold handleNestedFieldUpdate. destruct (children field) as [| | ch]; try done.
  intros [= <-]. by exists ch.
Qed.

(** At the index of a child that is there, the update replaces that child
    and nothing else, as the assignment [newChildren[index] = updatedChild]
    does. *)
Lemma handleNestedFieldUpdate_lookup (field : Field) (index : nat)
    (child u v : Field) :
  children_or_empty field !! index = Some child →
  handleNestedFieldUpdate field index u = Some v →
  children_or_empty v !! index = Some u
  ∧ length (children_or_empty v) = length (children_or_empty field)
  ∧ ∀ j, j ≠ index →
         children_or_empty v !! j = children_or_empty field !! j.
Proof.
  intros Hchild (ch & Hch & ->)%handleNestedFieldUpdate_Some.
  unfold children_or_empty in *. rewrite Hch in *.
  destruct field as [i k t c co]; simpl in *.
  split; [| split].
  - apply list_lookup_insert_eq. by eapply lookup_lt_Some.
  - apply length_insert.
  - intros j Hj. by apply list_lookup_insert_ne.
Qed.

Lemma toggleIn_visit (path : list nat) :
  ∀ field u, toggleIn field path = Some u →
    ∀ result, visit u result = visit field result.
Proof.
  induction path as [| index path IH]; intros field u; simpl.
  - case_decide; [| done]. intros [= <-] result. by destruct field.
  - intros Hu result.
    destruct (children_or_empty field !! index) as [child |] eqn:Hchild;
      simpl in Hu; [| done].
    destruct (toggleIn child path) as [u' |] eqn:Hu'; simpl in Hu; [| done].
    apply handleNestedFieldUpdate_Some in Hu as (ch & Hch & ->).
    unfold children_or_empty in Hchild. rewrite Hch in Hchild.
    rewrite !visit_entry. unfold entry.
    destruct field as [i k t c co]; simpl in *. subst c.
    unfold convertToJSON.
    rewrite (visit_all_insert ch index child u'); eauto.
Qed.

Lemma toggleAt_same_result (fields fields' : list Field) (path : list nat) :
  toggleAt fields path = Some fields' →
  ∀ result,
    fold_left (λ r f, visit f r) fields' result
    = fold_left (λ r f, visit f r) fields result.
Proof.
  destruct path as [| index path]; simpl; [done |].
  destruct (fields !! index) as [field |] eqn:Hfield; simpl; [| done].
  destruct (toggleIn field path) as [u |] eqn:Hu; simpl; [| done].
  intros [= <-]. unfold handleFieldUpdate.
  apply visit_all_insert with (child := field); [done |].
  by apply toggleIn_visit with (path := path).
Qed.

(** C4: toggling the collapse flag of any [Nested] node of a tree leaves the
    result of [convertToJSON] as it was. *)
Theorem toggleAt_convertToJSON (fields fields' : list Field) (path : list nat) :
  toggleAt fields path = Some fields' →
  convertToJSON fields' = convertToJSON fields.
Proof. intros Htoggle. by apply (toggleAt_same_result fields fields' path). Qed.

Lemma toggleAt_convertToJSON_witness :
  let inner := mkField "i3" "city" "String" Undefined (Some false) in
  let mid := mkField "i2" "address" "Nested" (Value [inner]) (Some false) in
  let top := mkField "i1" "user" "Nested" (Value [mid]) (Some true) in
  let top' := mkField "i1" "user" "Nested"
                (Value [with_collapsed mid (Some true)]) (Some true) in
  toggleAt [top] [0; 0] = Some [top']
  ∧ convertToJSON [top'] = convertToJSON [top].
Proof.
  split; [reflexivity |].
  apply (toggleAt_convertToJSON
           [mkField "i1" "user" "Nested"
              (Value [mkField "i2" "address" "Nested"
                        (Value [mkField "i3" "city" "String" Undefined (Some false)])
                        (Some false)])
              (Some true)]
           _ [0; 0]).
  reflexivity.
Defined.

(** The collapse button of a rendered field is one such toggle. *)
Lemma fieldAction_toggleIn (path : list nat) :
  ∀ field u, fieldAction field path ToggleCollapsed = Some u →
             toggleIn field path = Some u.
Proof.
  induction path as [| index path IH]; intros field u; simpl; [done |].
  destruct (rendersChildren field); [| done].
  destruct (children_or_empty field !! index) as [child |]; simpl; [| done].
  assert (Hgo : (fieldAction child path ToggleCollapsed
                   ≫= handleNestedFieldUpdate field index) = Some u →
                (toggleIn child path ≫= handleNestedFieldUpdate field index) = Some u).
  { destruct (fieldAction child path ToggleCollapsed) as [u' |] eqn:Hu'; [| done].
    by rewrite (IH _ _ Hu'). }
  by destruct path.
Qed.

Lemma step_toggle_convertToJSON (fields fields' : list Field) (path : list nat) :
  step fields (OnField path ToggleCollapsed) = Some fields' →
  convertToJSON fields' = convertToJSON fields.
Proof.
  intros Hstep. apply toggleAt_same_result with (path := path).
  destruct path as [| index path]; simpl in *; [done |].
  destruct (fields !! index) as [field |]; simpl in *; [| done].
  assert (Hgo : (fieldAction field path ToggleCollapsed
                   ≫= λ u, Some (handleFieldUpdate fields index u)) = Some fields').
  { by destruct path. }
  destruct (fieldAction field path ToggleCollapsed) as [u |] eqn:Hu; [| done].
  by rewrite (fieldAction_toggleIn _ _ _ Hu).
Qed.

(** ** Identity of the nodes *)

Lemma submseteq_NoDup (l k : list string) : l ⊆+ k → NoDup k → NoDup l.
Proof.
  intros [k' Hk]%submseteq_Permutation. rewrite Hk.
  by intros [? _]%NoDup_app.
Qed.

Lemma ids_unfold (field : Field) :
  ids field = id field :: children_or_empty field ≫= ids.
Proof. by destruct field as [i k t [| | ch] co]. Qed.

Lemma ids_with_children (field : Field) (ch : list Field) :
  ids (with_children field (Value ch)) = id field :: ch ≫= ids.
Proof. by destruct field. Qed.

(** Replacing an element of a sequence by one that holds at most its ids and
    the ids [new] gives a sequence that holds at most the old ids and [new]. *)
Lemma insert_ids_submseteq (new : list string) (ch : list Field)
    (index : nat) (child u : Field) :
  ch !! index = Some child →
  ids u ⊆+ new ++ ids child →
  <[index:=u]> ch ≫= ids ⊆+ new ++ ch ≫= ids.
Proof.
  intros Hchild Hu.
  rewrite insert_take_drop by (by eapply lookup_lt_Some).
  rewrite <- (take_drop_middle ch index child Hchild) at 3.
  rewrite !bind_app, !bind_cons.
  transitivity ((take index ch ≫= ids)
                ++ (new ++ ids child) ++ drop (S index) ch ≫= ids).
  - apply submseteq_skips_l. by apply submseteq_skips_r.
  - solve_submseteq.
Qed.

Lemma nested_update_ids (new : list string) (field : Field) (index : nat)
    (child u' u : Field) :
  children_or_empty field !! index = Some child →
  ids u' ⊆+ new ++ ids child →
  handleNestedFieldUpdate field index u' = Some u →
  ids u ⊆+ new ++ ids field.
Proof.
  intros Hchild Hu' (ch & Hch & ->)%handleNestedFieldUpdate_Some.
  rewrite ids_with_children, ids_unfold.
  unfold children_or_empty in *. rewrite Hch in *.
  apply submseteq_cons_middle. by eapply insert_ids_submseteq.
Qed.

Lemma nested_delete_ids (field : Field) (index : nat) (u : Field) :
  handleNestedFieldDelete field index = Some u → ids u ⊆+ ids field.
Proof.
  unfold handleNestedFieldDelete.
  destruct (children field) as [| | ch] eqn:Hch; try done. intros [= <-].
  rewrite ids_with_children, ids_unfold. unfold children_or_empty. rewrite Hch.
  apply submseteq_skip. apply bind_submseteq, submseteq_delete.
Qed.

Lemma ownAction_ids (field : Field) (a : Action) (u : Field) :
  ownAction field a = Some u → ids u ⊆+ actionDraw a ++ ids field.
Proof.
  destruct a as [editValue | newType | r | |]; simpl.
  - rewrite handleKeyUpdate_unfold. case_decide; [done |].
    intros [= <-]. by destruct field.
  - intros [= <-]. rewrite (ids_unfold field).
    unfold handleTypeChange. case_decide; simpl;
      apply submseteq_skip, submseteq_nil_l.
  - unfold handleAddNestedField. case_decide; [| done]. intros [= <-].
    rewrite ids_with_children, (ids_unfold field), bind_app. simpl.
    apply Permutation_submseteq.
    rewrite (Permutation_app_comm _ [generateId r]). simpl.
    apply perm_swap.
  - case_decide; [| done]. intros [= <-]. by destruct field.
  - done.
Qed.

(** An action on a rendered field brings in no id but the one it draws. *)
Lemma fieldAction_ids (a : Action) (path : list nat) :
  ∀ field u, fieldAction field path a = Some u →
             ids u ⊆+ actionDraw a ++ ids field.
Proof.
  induction path as [| index path IH]; intros field u; simpl.
  { apply ownAction_ids. }
  destruct (rendersChildren field); [| done].
  destruct (children_or_empty field !! index) as [child |] eqn:Hchild;
    simpl; [| done].
  intros Hu.
  assert (Hcases :
    (a = Delete ∧ handleNestedFieldDelete field index = Some u)
    ∨ (fieldAction child path a ≫= handleNestedFieldUpdate field index) = Some u).
  { destruct path; destruct a; auto. }
  destruct Hcases as [[-> Hdel] | (u' & Hu' & Hupd)%bind_Some].
  - by apply nested_delete_ids in Hdel.
  - eapply nested_update_ids; eauto.
Qed.

(** An event brings into the tree no id but the one it draws. *)
Lemma step_ids (fields fields' : list Field) (e : Event) :
  step fields e = Some fields' →
  treeIds fields' ⊆+ drawn e ++ treeIds fields.
Proof.
  unfold treeIds.
  destruct e as [r | type0 r | r | path a]; simpl.
  - intros [= <-]. unfold handleAddField. rewrite bind_app. simpl.
    apply Permutation_submseteq.
    by rewrite (Permutation_app_comm _ [generateId r]).
  - intros [= <-]. unfold addFieldWithType. rewrite bind_app.
    apply Permutation_submseteq. rewrite Permutation_app_comm.
    unfold createNewField. simpl. by case_decide.
  - intros [= <-]. simpl. apply submseteq_skip, submseteq_nil_l.
  - destruct path as [| index path]; [done |].
    destruct (fields !! index) as [field |] eqn:Hfield; simpl; [| done].
    intros Hstep.
    assert (Hcases :
      (a = Delete ∧ handleFieldDelete fields index = fields')
      ∨ (fieldAction field path a
           ≫= λ u, Some (handleFieldUpdate fields index u)) = Some fields').
    { destruct path; destruct a; auto. left. split; [done | congruence]. }
    destruct Hcases as [[-> <-] | (u & Hu & [= <-])%bind_Some].
    + apply bind_submseteq, submseteq_delete.
    + eapply insert_ids_submseteq; [done |]. by eapply fieldAction_ids.
Qed.

(** The invariant of a session: the ids of the tree are pairwise different
    and all among the ids given out so far. *)
Lemma run_NoDup (events : list Event) :
  ∀ (fields : list Field) (used : list string),
    NoDup (treeIds fields) →
    treeIds fields ⊆ used →
    NoDup (events ≫= drawn) →
    (∀ x, x ∈ events ≫= drawn → x ∉ used) →
    NoDup (treeIds (run events fields)).
Proof.
  induction events as [| e events IH]; intros fields used Hnd Hused Hdraws Hfresh;
    simpl; [done |].
  rewrite bind_cons in Hdraws, Hfresh.
  apply NoDup_app in Hdraws as (Hde & Hdisj & Hrest).
  destruct (step fields e) as [fields' |] eqn:Hstep; simpl.
  - apply step_ids in Hstep.
    apply (IH fields' (drawn e ++ used)); [| | done |].
    + eapply submseteq_NoDup; [exact Hstep |].
      apply NoDup_app. split; [done |]. split; [| done].
      intros x Hx Hin. apply (Hfresh x); [| by apply Hused].
      apply elem_of_app. by left.
    + intros x Hx. eapply elem_of_submseteq in Hx; [| exact Hstep].
      apply elem_of_app in Hx as [Hx | Hx]; apply elem_of_app; [by left |].
      right. by apply Hused.
    + intros x Hx [Hin | Hin]%elem_of_app.
      * by apply (Hdisj x).
      * apply (Hfresh x); [| done]. apply elem_of_app. by right.
  - apply (IH fields used); try done.
    intros x Hx. apply Hfresh. apply elem_of_app. by right.
Qed.

(** C2, as the code has it: after any sequence of events from the empty
    tree, the ids of the tree are pairwise different, provided the ids that
    [generateId] drew for the creations were. *)
Theorem run_ids_unique (events : list Event) :
  NoDup (events ≫= drawn) →
  NoDup (treeIds (run events [])).
Proof.
  intros Hdraws. apply (run_NoDup events [] []); try done.
  - constructor.
  - intros x _. apply not_elem_of_nil.
Qed.

Lemma run_ids_unique_witness :
  let events :=
    [AddField "0.4fzyo82mvyr";
     AddFieldWithType "Nested" "0.b2k9x0c1dq7";
     OnField [1] (AddNestedField "0.zq1x8symk3");
     OnField [1] (AddNestedField "0.0m3ffw2h9ab");
     OnField [1; 0] (TypeChange "Nested");
     OnField [1; 0] (AddNestedField "0.k7u2p0a5tt1");
     OnField [0] (TypeChange "Number");
     OnField [1; 1] Delete;
     AddFieldWithType "Number" "0.9y4d1c6ev0s"] in
  NoDup (events ≫= drawn)
  ∧ treeIds (run events []) = ["4fzyo82mv"; "b2k9x0c1d"; "zq1x8symk"; "k7u2p0a5t"; "9y4d1c6ev"]
  ∧ NoDup (treeIds (run events [])).
Proof.
  split; [decide_closed |].
  split; [by vm_compute |].
  apply run_ids_unique. decide_closed.
Defined.

(** C2 fails as stated: [generateId] keeps nine characters of a random
    number, and nothing compares a new id with the ids in the tree.  Two
    creations whose draws agree on those characters give two nodes with one
    id. *)
Lemma run_ids_collide :
  let events := [AddField "0.4fzyo82mvyr"; AddField "0.4fzyo82mvzz"] in
  treeIds (run events []) = ["4fzyo82mv"; "4fzyo82mv"]
  ∧ ¬ NoDup (treeIds (run events [])).
Proof.
  split; [reflexivity |]. decide_closed.
Qed.

(** ** Invariants of a session *)

Lemma forallb_Forall {A : Type} (p : A → bool) (l : list A) :
  forallb p l = true ↔ Forall (λ x, p x = true) l.
Proof.
  induction l as [| x l IH]; simpl; [by split |].
  rewrite andb_true_iff, Forall_cons. by rewrite IH.
Qed.

Lemma handleNestedFieldDelete_Some (field : Field) (index : nat) (u : Field) :
  handleNestedFieldDelete field index = Some u →
  ∃ ch, children field = Value ch
        ∧ u = with_children field (Value (delete index ch)).
Proof.
  unfold handleNestedFieldDelete. destruct (children field) as [| | ch]; try done.
  intros [= <-]. by exists ch.
Qed.

(** The two things a field does on behalf of a descendant. *)
Lemma fieldAction_cons_cases (field : Field) (index : nat) (path : list nat)
    (a : Action) (u : Field) :
  fieldAction field (index :: path) a = Some u →
  rendersChildren field = true
  ∧ ∃ child, children_or_empty field !! index = Some child
      ∧ ((path = [] ∧ a = Delete ∧ handleNestedFieldDelete field index = Some u)
         ∨ (∃ u', fieldAction child path a = Some u'
                  ∧ handleNestedFieldUpdate field index u' = Some u)).
Proof.
  simpl. destruct (rendersChildren field); [| done].
  destruct (children_or_empty field !! index) as [child |]; simpl; [| done].
  intros Hu. split; [done |]. exists child. split; [done |].
  assert (Hcases :
    (path = [] ∧ a = Delete ∧ handleNestedFieldDelete field index = Some u)
    ∨ (fieldAction child path a ≫= handleNestedFieldUpdate field index) = Some u).
  { destruct path; destruct a; auto. }
  destruct Hcases as [? | (u' & ? & ?)%bind_Some]; [by left | right; eauto].
Qed.

Lemma step_OnField_cases (fields fields' : list Field) (index : nat)
    (path : list nat) (a : Action) :
  step fields (OnField (index :: path) a) = Some fields' →
  ∃ field, fields !! index = Some field
    ∧ ((path = [] ∧ a = Delete ∧ fields' = handleFieldDelete fields index)
       ∨ (∃ u, fieldAction field path a = Some u
               ∧ fields' = handleFieldUpdate fields index u)).
Proof.
  simpl. destruct (fields !! index) as [field |]; simpl; [| done].
  intros Hstep. exists field. split; [done |].
  assert (Hcases :
    (path = [] ∧ a = Delete ∧ Some (handleFieldDelete fields index) = Some fields')
    ∨ (fieldAction field path a
         ≫= λ u, Some (handleFieldUpdate fields index u)) = Some fields').
  { destruct path; destruct a; auto. }
  destruct Hcases as [(? & ? & [= <-]) | (u & ? & [= <-])%bind_Some];
    [by left | right; eauto].
Qed.

(** A property of fields that the constructors of the handlers keep is kept
    by every event, hence by every session. *)
Section SessionInvariant.
Variables (okType okKey : string → bool) (Q : Field → Prop).

Hypothesis Q_create :
  ∀ r t, t = "String" ∨ okType t = true → Q (createNewField r t).
Hypothesis Q_key :
  ∀ f v, Q f → trim v ≠ "" → okKey (trim v) = true → Q (with_key f (trim v)).
Hypothesis Q_type :
  ∀ f t, okType t = true → Q f → Q (handleTypeChange f t).
Hypothesis Q_toggle :
  ∀ f, Q f → type f = "Nested" → Q (toggleCollapsed f).
Hypothesis Q_children :
  ∀ f ch, Q f →
    type f = "Nested" ∨ truthy_children (children f) = true →
    Forall Q ch → Q (with_children f (Value ch)).
Hypothesis Q_inv : ∀ f, Q f → Forall Q (children_or_empty f).

Lemma invariant_ownAction (path : list nat) (field u : Field) (a : Action) :
  eventOk okType okKey (OnField path a) = true →
  Q field → ownAction field a = Some u → Q u.
Proof.
  intros Hok HQ. destruct a as [editValue | newType | r | |]; simpl in *.
  - rewrite handleKeyUpdate_unfold. case_decide; [done |].
    intros [= <-]. by apply Q_key.
  - intros [= <-]. by apply Q_type.
  - unfold handleAddNestedField. case_decide; [| done]. intros [= <-].
    apply Q_children; [done | by left |].
    apply Forall_app. split; [by apply Q_inv |].
    apply Forall_singleton, Q_create. by left.
  - case_decide; [| done]. intros [= <-]. by apply Q_toggle.
  - done.
Qed.

Lemma invariant_fieldAction (a : Action) (path0 path : list nat) :
  eventOk okType okKey (OnField path0 a) = true →
  ∀ field u, Q field → fieldAction field path a = Some u → Q u.
Proof.
  intros Hok. induction path as [| index path IH]; intros field u HQ Hu.
  { by eapply (invariant_ownAction path0). }
  apply fieldAction_cons_cases in Hu as (_ & child & Hchild & Hcases).
  pose proof (Q_inv field HQ) as Hch.
  destruct Hcases as [(_ & _ & Hdel) | (u' & Hu' & Hupd)].
  - apply handleNestedFieldDelete_Some in Hdel as (ch & Hc & ->).
    unfold children_or_empty in Hch. rewrite Hc in Hch.
    apply Q_children; [done | right; by rewrite Hc |].
    by apply Forall_delete.
  - apply handleNestedFieldUpdate_Some in Hupd as (ch & Hc & ->).
    unfold children_or_empty in Hch, Hchild. rewrite Hc in Hch, Hchild.
    apply Q_children; [done | right; by rewrite Hc |].
    apply Forall_insert; [done |].
    apply (IH child); [| done].
    eapply Forall_lookup_1; eauto.
Qed.

Lemma invariant_step (fields fields' : list Field) (e : Event) :
  eventOk okType okKey e = true →
  Forall Q fields → step fields e = Some fields' → Forall Q fields'.
Proof.
  intros Hok HQ. destruct e as [r | t r | r | [| index path] a]; simpl in Hok.
  - intros [= <-]. apply Forall_app. split; [done |].
    apply Forall_singleton, Q_create. by left.
  - intros [= <-]. apply Forall_app. split; [done |].
    apply Forall_singleton, Q_create. by right.
  - intros [= <-]. apply Forall_singleton, Q_create. by left.
  - done.
  - intros (field & Hfield & Hcases)%step_OnField_cases.
    destruct Hcases as [(_ & _ & ->) | (u & Hu & ->)].
    + by apply Forall_delete.
    + apply Forall_insert; [done |].
      eapply (invariant_fieldAction a (index :: path)); [done | | exact Hu].
      eapply Forall_lookup_1; eauto.
Qed.

Lemma invariant_run (events : list Event) :
  forallb (eventOk okType okKey) events = true →
  ∀ fields, Forall Q fields → Forall Q (run events fields).
Proof.
  induction events as [| e events IH]; intros Hok fields HQ; simpl in *;
    [done |].
  apply andb_prop in Hok as [He Hok].
  apply IH; [done |].
  destruct (step fields e) as [fields' |] eqn:Hstep; simpl; [| done].
  by eapply invariant_step.
Qed.
End SessionInvariant.

Lemma shaped_unfold (node : Field) :
  shaped node =
  match children node with
  | Value ch =>
      bool_decide (type node = "Nested")
      && bool_decide (is_Some (collapsed node))
      && forallb shaped ch
  | _ => negb (bool_decide (type node = "Nested"))
  end.
Proof. by destruct node. Qed.

Lemma wellFormed_unfold (node : Field) :
  wellFormed node =
  match children node with
  | Value ch => bool_decide (type node = "Nested") && forallb wellFormed ch
  | _ => bool_decide (type node = "String") || bool_decide (type node = "Number")
  end.
Proof. by destruct node. Qed.

Lemma trimmedKeys_unfold (node : Field) :
  trimmedKeys node =
  negb (startsWithWhiteSpace (key node))
  && negb (endsWithWhiteSpace (key node))
  && match children node with
     | Value ch => forallb trimmedKeys ch
     | _ => true
     end.
Proof. by destruct node. Qed.

Lemma plainKeys_unfold (node : Field) :
  plainKeys node =
  negb (bool_decide (key node = "__proto__"))
  && match children node with
     | Value ch => forallb plainKeys ch
     | _ => true
     end.
Proof. by destruct node. Qed.

Lemma eventOk_any (e : Event) : eventOk anyString anyString e = true.
Proof. destruct e as [| | | path []]; reflexivity. Qed.

Lemma typeOption_cases (t : string) :
  typeOption t = true ↔ t = "String" ∨ t = "Number" ∨ t = "Nested".
Proof.
  unfold typeOption. rewrite !orb_true_iff, !bool_decide_eq_true. tauto.
Qed.

(** Every tree a session builds is [shaped]. *)
Lemma run_shaped (events : list Event) :
  Forall (λ f, shaped f = true) (run events []).
Proof.
  apply (invariant_run anyString anyString (λ f, shaped f = true)); try done.
  - intros r t _. unfold createNewField. rewrite shaped_unfold; simpl.
    case_decide as Ht; simpl.
    + repeat (rewrite bool_decide_eq_true_2 by eauto). done.
    + by rewrite bool_decide_eq_false_2.
  - intros f v Hf _ _. by destruct f.
  - intros f t _ _. unfold handleTypeChange. rewrite shaped_unfold.
    case_decide as Ht; simpl.
    + repeat (rewrite bool_decide_eq_true_2 by eauto). done.
    + by rewrite bool_decide_eq_false_2.
  - intros f Hf Ht. rewrite shaped_unfold in *. simpl.
    destruct (children f); try done.
    apply andb_prop in Hf as [[H1 _]%andb_prop H3].
    rewrite H1, H3. by rewrite ?bool_decide_eq_true_2 by eauto.
  - intros f ch Hf Hor Hch. rewrite shaped_unfold in *. simpl.
    apply forallb_Forall in Hch. rewrite Hch.
    destruct (children f); simpl in *.
    + destruct Hor as [Ht | ?]; [| done].
      by rewrite bool_decide_eq_true_2 in Hf.
    + destruct Hor as [Ht | ?]; [| done].
      by rewrite bool_decide_eq_true_2 in Hf.
    + apply andb_prop in Hf as [-> _]. done.
  - intros f Hf. rewrite shaped_unfold in Hf. unfold children_or_empty.
    destruct (children f); try constructor.
    apply andb_prop in Hf as [_ Hf]. by apply forallb_Forall.
  - clear. induction events; [done |]. simpl. by rewrite eventOk_any.
Qed.

(** With the types the page offers, every tree a session builds is a tree
    of the data model. *)
Lemma run_wellFormed (events : list Event) :
  forallb offered events = true →
  Forall (λ f, wellFormed f = true) (run events []).
Proof.
  intros Hok.
  apply (invariant_run typeOption anyString (λ f, wellFormed f = true));
    try done.
  - intros r t Ht. unfold createNewField. rewrite wellFormed_unfold; simpl.
    case_decide as Hn; simpl; [by rewrite bool_decide_eq_true_2 |].
    destruct Ht as [-> | Ht]; [done |].
    apply typeOption_cases in Ht as [-> | [-> | ->]]; done.
  - intros f v Hf _ _. by destruct f.
  - intros f t Ht _. unfold handleTypeChange. rewrite wellFormed_unfold.
    case_decide as Hn; simpl; [by rewrite bool_decide_eq_true_2 |].
    apply typeOption_cases in Ht as [-> | [-> | ->]]; done.
  - intros f Hf Ht. by destruct f.
  - intros f ch Hf Hor Hch. rewrite wellFormed_unfold in *. simpl.
    apply forallb_Forall in Hch. rewrite Hch.
    destruct (children f); simpl in *.
    + destruct Hor as [Ht | ?]; [| done]. by rewrite Ht in Hf.
    + destruct Hor as [Ht | ?]; [| done]. by rewrite Ht in Hf.
    + apply andb_prop in Hf as [-> _]. done.
  - intros f Hf. rewrite wellFormed_unfold in Hf. unfold children_or_empty.
    destruct (children f); try constructor.
    apply andb_prop in Hf as [_ Hf]. by apply forallb_Forall.
Qed.

Lemma run_trimmedKeys (events : list Event) :
  Forall (λ f, trimmedKeys f = true) (run events []).
Proof.
  apply (invariant_run anyString anyString (λ f, trimmedKeys f = true));
    try done.
  - intros r t _. unfold createNewField. rewrite trimmedKeys_unfold; simpl.
    by case_decide.
  - intros f v Hf _ _. rewrite trimmedKeys_unfold in *. simpl.
    apply andb_prop in Hf as [_ ->].
    destruct (trim_spec v) as (pre & post & _ & _ & _ & -> & ->). done.
  - intros f t _ Hf. unfold handleTypeChange.
    case_decide; rewrite trimmedKeys_unfold in *; simpl;
      by apply andb_prop in Hf as [-> _].
  - intros f Hf _. by destruct f.
  - intros f ch Hf _ Hch. rewrite trimmedKeys_unfold in *. simpl.
    apply andb_prop in Hf as [-> _]. by apply forallb_Forall.
  - intros f Hf. rewrite trimmedKeys_unfold in Hf. unfold children_or_empty.
    apply andb_prop in Hf as [_ Hf].
    destruct (children f); try constructor. by apply forallb_Forall.
  - clear. induction events; [done |]. simpl. by rewrite eventOk_any.
Qed.

Lemma offeredPlain_offered (events : list Event) :
  forallb offeredPlain events = true → forallb offered events = true.
Proof.
  induction events as [| e events IH]; simpl; [done |].
  intros [He Hok]%andb_prop. rewrite IH by done.
  unfold offered, offeredPlain in *.
  destruct e as [| | | path []]; simpl in *; by rewrite ?He.
Qed.

Lemma run_plainKeys (events : list Event) :
  forallb offeredPlain events = true →
  Forall (λ f, plainKeys f = true) (run events []).
Proof.
  intros Hok.
  apply (invariant_run typeOption (λ k, negb (bool_decide (k = "__proto__")))
           (λ f, plainKeys f = true)); try done.
  - intros r t _. unfold createNewField. rewrite plainKeys_unfold; simpl.
    by case_decide.
  - intros f v Hf _ Hk. rewrite plainKeys_unfold in *. simpl.
    apply andb_prop in Hf as [_ ->]. by rewrite Hk.
  - intros f t _ Hf. unfold handleTypeChange.
    case_decide; rewrite plainKeys_unfold in *; simpl;
      by apply andb_prop in Hf as [-> _].
  - intros f Hf _. by destruct f.
  - intros f ch Hf _ Hch. rewrite plainKeys_unfold in *. simpl.
    apply andb_prop in Hf as [-> _]. by apply forallb_Forall.
  - intros f Hf. rewrite plainKeys_unfold in Hf. unfold children_or_empty.
    apply andb_prop in Hf as [_ Hf].
    destruct (children f); try constructor. by apply forallb_Forall.
Qed.

(** X1: in every tree a session builds from the empty tree, at every depth,
    a node has a children array exactly when its type is ['Nested'], and a
    ['Nested'] node has a collapsed flag. *)
Theorem session_keeps_shape (events : list Event) :
  forallb shaped (run events []) = true.
Proof. apply forallb_Forall, run_shaped. Qed.

(** X2: when every type handed to the handlers is one of the three the page
    offers, every node of every tree a session builds is a ['String'] or
    ['Number'] node without children or a ['Nested'] node with them. *)
Theorem session_wellFormed (events : list Event) :
  forallb offered events = true →
  forallb wellFormed (run events []) = true.
Proof. intros Hok. by apply forallb_Forall, run_wellFormed. Qed.

Lemma session_wellFormed_witness :
  let events :=
    [AddField "0.4fzyo82mvyr";
     AddFieldWithType "Nested" "0.b2k9x0c1dq7";
     OnField [1] (AddNestedField "0.zq1x8symk3");
     OnField [1; 0] (TypeChange "Nested");
     OnField [1; 0] (KeyUpdate " city ");
     OnField [0] (TypeChange "Number");
     OnField [1] ToggleCollapsed] in
  forallb offered events = true
  ∧ forallb wellFormed (run events []) = true.
Proof.
  split; [reflexivity |]. by apply session_wellFormed.
Defined.

(** X3: no key stored in a tree a session builds starts or ends with white
    space: a key is empty, as created, or was trimmed by a rename. *)
Theorem session_keys_trimmed (events : list Event) :
  forallb trimmedKeys (run events []) = true.
Proof. apply forallb_Forall, run_trimmedKeys. Qed.

(** X4: in a session of the page in which no field is named [__proto__],
    the preview is the serialization of the specification. *)
Theorem session_convertToJSON_serialize (events : list Event) :
  forallb offeredPlain events = true →
  convertToJSON (run events []) = serialize (run events []).
Proof.
  intros Hok. apply convertToJSON_serialize.
  - apply forallb_Forall, run_wellFormed. by apply offeredPlain_offered.
  - by apply forallb_Forall, run_plainKeys.
Qed.

Lemma session_convertToJSON_serialize_witness :
  let events :=
    [AddField "0.4fzyo82mvyr";
     OnField [0] (KeyUpdate "name");
     AddFieldWithType "Nested" "0.b2k9x0c1dq7";
     OnField [1] (KeyUpdate "address");
     OnField [1] (AddNestedField "0.zq1x8symk3");
     OnField [1; 0] (KeyUpdate " city ");
     AddFieldWithType "Number" "0.9y4d1c6ev0s";
     OnField [2] (KeyUpdate "name")] in
  forallb offeredPlain events = true
  ∧ convertToJSON (run events []) = serialize (run events [])
  ∧ convertToJSON (run events [])
    = <["address" := JObject (<["city" := JString "string"]> ∅)]>
        (<["name" := JNumber 42]> ∅).
Proof.
  split; [reflexivity |]. split; [by apply session_convertToJSON_serialize |].
  by vm_compute.
Defined.

Lemma counts_of_types (fields : list Field) :
  Forall (λ f, typeOption (type f) = true) fields →
  totalFields fields
  = countOfType "Nested" fields + countOfType "String" fields
    + countOfType "Number" fields.
Proof.
  unfold totalFields, countOfType.
  induction 1 as [| f fields Hf _ IH]; [done |].
  rewrite !filter_cons. simpl. rewrite IH.
  apply typeOption_cases in Hf as [Hf | [Hf | Hf]]; rewrite Hf;
    repeat case_decide; try done; simpl; lia.
Qed.

Lemma wellFormed_typeOption (f : Field) :
  wellFormed f = true → typeOption (type f) = true.
Proof.
  rewrite wellFormed_unfold. intros Hf. apply typeOption_cases.
  destruct (children f).
  - apply orb_prop in Hf as [?%bool_decide_eq_true | ?%bool_decide_eq_true]; auto.
  - apply orb_prop in Hf as [?%bool_decide_eq_true | ?%bool_decide_eq_true]; auto.
  - apply andb_prop in Hf as [?%bool_decide_eq_true _]; auto.
Qed.

(** X5: in a session of the page the four counts of the footer add up: the
    total is the number of ['Nested'] fields plus the number of ['String']
    fields plus the number of ['Number'] fields. *)
Theorem footer_counts_add_up (events : list Event) :
  forallb offered events = true →
  totalFields (run events [])
  = countOfType "Nested" (run events [])
    + countOfType "String" (run events [])
    + countOfType "Number" (run events []).
Proof.
  intros Hok. apply counts_of_types.
  eapply Forall_impl; [by apply run_wellFormed |].
  intros f. apply wellFormed_typeOption.
Qed.

Lemma footer_counts_add_up_witness :
  let events :=
    [AddField "0.4fzyo82mvyr";
     AddFieldWithType "Nested" "0.b2k9x0c1dq7";
     AddFieldWithType "Number" "0.9y4d1c6ev0s";
     AddField "0.k7u2p0a5tt1";
     OnField [0] (TypeChange "Nested");
     OnField [2] Delete] in
  forallb offered events = true
  ∧ totalFields (run events []) = 3
  ∧ totalFields (run events [])
    = countOfType "Nested" (run events [])
      + countOfType "String" (run events [])
      + countOfType "Number" (run events []).
Proof.
  split; [reflexivity |]. split; [reflexivity |].
  by apply footer_counts_add_up.
Defined.

(** ** Deleting, adding and replacing fields *)

Lemma filterIndex_all {A : Type} (p : nat → bool) (l : list A) :
  ∀ j : nat, (∀ i : nat, (j ≤ i)%nat → p i = true) → filterIndex p j l = l.
Proof.
  induction l as [| x l IH]; intros j Hp; simpl; [done |].
  rewrite (Hp j) by lia. f_equal. apply IH. intros i Hi. apply Hp. lia.
Qed.

(** The filter that drops one index is the removal of that position. *)
Lemma filterIndex_delete {A : Type} (p : nat → bool) (l : list A) :
  ∀ i0 index : nat,
    (∀ i : nat, p i = negb (Nat.eqb i (i0 + index)%nat)) →
    filterIndex p i0 l = delete index l.
Proof.
  induction l as [| x l IH]; intros i0 index Hp; simpl; [by destruct index |].
  rewrite (Hp i0). destruct index as [| index]; simpl.
  - rewrite Nat.add_0_r, Nat.eqb_refl. simpl.
    apply filterIndex_all. intros i Hi. rewrite Hp.
    destruct (Nat.eqb_spec i (i0 + 0)); [lia | done].
  - destruct (Nat.eqb_spec i0 (i0 + S index)) as [Heq | _]; [lia |]. simpl.
    f_equal. apply IH. intros i. rewrite Hp. do 2 f_equal. lia.
Qed.

(** X6: deleting a field keeps exactly the fields whose index differs from
    the one given, as the filter of the code does: the fields before it stay
    where they are, the fields after it move down by one, and an index past
    the end removes nothing.  The same holds for the children of a field. *)
Theorem handleFieldDelete_filter (fields : list Field) (index : nat) :
  handleFieldDelete fields index
  = filterIndex (λ i, negb (Nat.eqb i index)) 0 fields
  ∧ length (handleFieldDelete fields index)
    = (if decide (index < length fields)%nat then (length fields - 1)%nat
       else length fields)
  ∧ (∀ j, handleFieldDelete fields index !! j
          = if decide (j < index)%nat then fields !! j else fields !! S j)
  ∧ (∀ field,
       handleNestedFieldDelete field index
       = match children field with
         | Value ch =>
             Some (with_children field
                     (Value (filterIndex (λ i, negb (Nat.eqb i index)) 0 ch)))
         | _ => None
         end).
Proof.
  unfold handleFieldDelete. repeat split.
  - symmetry. by apply filterIndex_delete.
  - case_decide as Hi.
    + rewrite length_delete; [lia |]. by apply lookup_lt_is_Some.
    + rewrite delete_take_drop, drop_ge, app_nil_r by lia.
      by rewrite take_ge by lia.
  - intros j. case_decide.
    + by apply list_lookup_delete_lt.
    + apply list_lookup_delete_ge. lia.
  - intros field. unfold handleNestedFieldDelete.
    destruct (children field); try done.
    by rewrite (filterIndex_delete (λ i, negb (Nat.eqb i index)) _ 0 index).
Qed.

Lemma fieldAction_id (a : Action) (path : list nat) :
  ∀ field u, fieldAction field path a = Some u → id u = id field.
Proof.
  destruct path as [| index path]; intros field u.
  - destruct a as [editValue | newType | r | |]; simpl.
    + rewrite handleKeyUpdate_unfold. case_decide; [done |]. by intros [= <-].
    + intros [= <-]. unfold handleTypeChange. by case_decide.
    + unfold handleAddNestedField. case_decide; [| done]. by intros [= <-].
    + case_decide; [| done]. by intros [= <-].
    + done.
  - intros (_ & child & _ & Hcases)%fieldAction_cons_cases.
    destruct Hcases as [(_ & _ & Hdel) | (u' & _ & Hupd)].
    + by apply handleNestedFieldDelete_Some in Hdel as (ch & _ & ->).
    + by apply handleNestedFieldUpdate_Some in Hupd as (ch & _ & ->).
Qed.

(** X7: an action on a field either is the deletion of a root field, which
    removes that position, or leaves every other root field untouched and
    the sequence of root ids, the keys of the rendered list, as it was. *)
Theorem step_OnField_frame (fields fields' : list Field) (index : nat)
    (path : list nat) (a : Action) :
  step fields (OnField (index :: path) a) = Some fields' →
  (path = [] ∧ a = Delete ∧ fields' = delete index fields)
  ∨ (id <$> fields' = id <$> fields
     ∧ length fields' = length fields
     ∧ ∀ j, j ≠ index → fields' !! j = fields !! j).
Proof.
  intros (field & Hfield & Hcases)%step_OnField_cases.
  destruct Hcases as [(-> & -> & ->) | (u & Hu & ->)]; [by left | right].
  unfold handleFieldUpdate. split; [| split].
  - rewrite list_fmap_insert. apply fieldAction_id in Hu. rewrite Hu.
    apply list_insert_id. by rewrite list_lookup_fmap, Hfield.
  - apply length_insert.
  - intros j Hj. by apply list_lookup_insert_ne.
Qed.

Lemma step_OnField_frame_witness :
  let a := mkField "i1" "name" "String" Undefined (Some false) in
  let b := mkField "i2" "age" "Number" Undefined (Some false) in
  let fields' := [a; mkField "i2" "years" "Number" Undefined (Some false)] in
  step [a; b] (OnField [1] (KeyUpdate " years ")) = Some fields'
  ∧ id <$> fields' = id <$> [a; b]
  ∧ fields' !! 0 = [a; b] !! 0.
Proof.
  split; [reflexivity |].
  destruct (step_OnField_frame
              [mkField "i1" "name" "String" Undefined (Some false);
               mkField "i2" "age" "Number" Undefined (Some false)]
              [mkField "i1" "name" "String" Undefined (Some false);
               mkField "i2" "years" "Number" Undefined (Some false)]
              1 [] (KeyUpdate " years ") eq_refl)
    as [(_ & Hdel & _) | (Hids & _ & Hframe)]; [discriminate |].
  split; [exact Hids | by apply Hframe].
Defined.

(** X8: an action on a descendant changes nothing of an ancestor but its
    children: id, key, type and collapsed flag are those it had, and it
    still has a children array. *)
Theorem fieldAction_ancestor_attributes (field u : Field) (index : nat)
    (path : list nat) (a : Action) :
  fieldAction field (index :: path) a = Some u →
  id u = id field ∧ key u = key field ∧ type u = type field
  ∧ collapsed u = collapsed field
  ∧ truthy_children (children u) = true.
Proof.
  intros (_ & child & _ & Hcases)%fieldAction_cons_cases.
  destruct Hcases as [(_ & _ & Hdel) | (u' & _ & Hupd)].
  - by apply handleNestedFieldDelete_Some in Hdel as (ch & _ & ->).
  - by apply handleNestedFieldUpdate_Some in Hupd as (ch & _ & ->).
Qed.

Lemma fieldAction_ancestor_attributes_witness :
  let child := mkField "i2" "city" "String" Undefined (Some false) in
  let field := mkField "i1" "address" "Nested" (Value [child]) (Some false) in
  let u := mkField "i1" "address" "Nested"
             (Value [mkField "i2" "city" "Number" Absent None]) (Some false) in
  fieldAction field [0] (TypeChange "Number") = Some u
  ∧ key u = key field ∧ collapsed u = collapsed field.
Proof.
  split; [reflexivity |].
  destruct (fieldAction_ancestor_attributes
              (mkField "i1" "address" "Nested"
                 (Value [mkField "i2" "city" "String" Undefined (Some false)])
                 (Some false))
              (mkField "i1" "address" "Nested"
                 (Value [mkField "i2" "city" "Number" Absent None]) (Some false))
              0 [] (TypeChange "Number") eq_refl)
    as (_ & Hkey & _ & Hcollapsed & _).
  by split.
Defined.

(** X9: a retype forgets what the node was: the result depends on the id,
    the key and the new type only, so of two retypes in a row the second
    alone counts, and retyping twice to one type is retyping once. *)
Theorem handleTypeChange_absorbs (field : Field) (t1 t2 : string) :
  handleTypeChange (handleTypeChange field t1) t2 = handleTypeChange field t2
  ∧ handleTypeChange field t2
    = handleTypeChange (mkField (id field) (key field) t1 Absent None) t2.
Proof.
  destruct field as [i k t c co]. unfold handleTypeChange.
  split; repeat case_decide; reflexivity.
Qed.

(** ** Renaming twice *)

Lemma trimStart_fixed (s : string) :
  startsWithWhiteSpace s = false → trimStart s = s.
Proof. destruct s as [| c s]; simpl; [done |]. by intros ->. Qed.

Lemma trimEnd_fixed (s : string) :
  endsWithWhiteSpace s = false → trimEnd s = s.
Proof.
  induction s as [| c s IH]; [done |].
  destruct s as [| d s].
  - simpl. by intros ->.
  - intros Hend. change (endsWithWhiteSpace (String d s) = false) in Hend.
    change (trimEnd (String c (String d s)))
      with (match trimEnd (String d s) with
            | EmptyString =>
                if isWhiteSpace c then EmptyString else String c EmptyString
            | t => String c t
            end).
    by rewrite (IH Hend).
Qed.

Lemma trim_idempotent (s : string) : trim (trim s) = trim s.
Proof.
  destruct (trim_spec s) as (pre & post & _ & _ & _ & Hstart & Hend).
  unfold trim at 1. rewrite (trimStart_fixed _ Hstart).
  by apply trimEnd_fixed.
Qed.

(** X10: a rename with a text that was already trimmed does what the rename
    with the raw text does, and renaming a second time with the same text
    changes nothing more. *)
Theorem setKey_idempotent (node : Field) (newKey : string) :
  trim (trim newKey) = trim newKey
  ∧ setKey node (trim newKey) = setKey node newKey
  ∧ setKey (setKey node newKey) newKey = setKey node newKey.
Proof.
  split; [apply trim_idempotent |].
  unfold setKey. rewrite !handleKeyUpdate_unfold, trim_idempotent.
  split; [done |].
  destruct (decide (trim newKey = "")) as [Ht | Ht]; simpl; [done |].
  by destruct node.
Qed.

(** ** What an addition does to the preview *)

(** X11: a field just added has the empty key, so each add button writes
    the default of its type under the key [""] of the preview, over whatever
    entry that key had, and leaves the other entries alone. *)
Theorem add_buttons_preview (fields : list Field) (r : string) :
  convertToJSON (handleAddField fields r)
  = <["" := JString "string"]> (convertToJSON fields)
  ∧ convertToJSON (addFieldWithType fields r "Number")
    = <["" := JNumber 42]> (convertToJSON fields)
  ∧ convertToJSON (addFieldWithType fields r "Nested")
    = <["" := JObject ∅]> (convertToJSON fields).
Proof.
  unfold handleAddField, addFieldWithType.
  rewrite !convertToJSON_snoc. by repeat split.
Qed.

(** X14: the add button of a ['Nested'] field, collapsed or not, with a
    children array or without, gives the field a new last child, and the
    entry of the field in the preview gains the key [""] with the default
    ["string"]. *)
Theorem handleAddNestedField_preview (field : Field) (r : string) :
  type field = "Nested" →
  ∃ u, handleAddNestedField field r = Some u
       ∧ children u
         = Value (children_or_empty field ++ [createNewField r "String"])
       ∧ collapsed u = collapsed field
       ∧ entry u
         = Some (JObject (<["" := JString "string"]>
                            (convertToJSON (children_or_empty field)))).
Proof.
  intros Ht. unfold handleAddNestedField. rewrite decide_True by done.
  eexists. split; [done |]. split; [done |]. split; [done |].
  unfold entry. simpl. rewrite Ht. simpl.
  by rewrite convertToJSON_snoc.
Qed.

Lemma handleAddNestedField_preview_witness :
  let field := mkField "i1" "address" "Nested" Undefined (Some true) in
  type field = "Nested"
  ∧ ∃ u, handleAddNestedField field "0.zq1x8symk3" = Some u
         ∧ children u = Value ([] ++ [createNewField "0.zq1x8symk3" "String"])
         ∧ collapsed u = Some true
         ∧ entry u = Some (JObject (<["" := JString "string"]> (convertToJSON []))).
Proof.
  split; [reflexivity |].
  exact (handleAddNestedField_preview
           (mkField "i1" "address" "Nested" Undefined (Some true))
           "0.zq1x8symk3" eq_refl).
Defined.

(** ** The entries of the preview *)

Lemma convertToJSON_lookup_lastEntry (k : string) (fields : list Field) :
  convertToJSON fields !! k
  = if decide (k = "__proto__") then None else lastEntry k fields.
Proof.
  destruct (decide (k = "__proto__")) as [-> | Hp].
  { unfold convertToJSON. rewrite visit_all_lookup_proto. apply lookup_empty. }
  unfold lastEntry.
  induction fields as [| f fields IH] using rev_ind.
  { change (convertToJSON []) with (∅ : gmap string Json).
    by rewrite lookup_empty. }
  rewrite convertToJSON_snoc, visit_entry, omap_app. simpl.
  destruct (decide (key f = k)) as [Hk | Hk].
  - destruct (entry f) as [v |]; [| by rewrite app_nil_r].
    subst k. rewrite assign_lookup_eq by done. by rewrite last_snoc.
  - rewrite app_nil_r.
    destruct (entry f) as [v |]; [| done]. by rewrite assign_lookup_ne.
Qed.

(** X12: what the preview holds under a key: nothing under [__proto__], and
    under any other key the value of the last field with that key that
    assigns one, a ['String'], ['Number'] or ['Nested'] field with children;
    in particular nothing for an empty sequence. *)
Theorem convertToJSON_lookup (k : string) (fields : list Field) :
  convertToJSON fields !! k
  = if decide (k = "__proto__") then None else lastEntry k fields.
Proof. apply convertToJSON_lookup_lastEntry. Qed.

Lemma visit_all_size (fields : list Field) :
  ∀ result : gmap string Json,
    (size (fold_left (λ r f, visit f r) fields result)
     ≤ size result + length fields)%nat.
Proof.
  induction fields as [| f fields IH]; intros result; simpl; [lia |].
  etransitivity; [apply IH |].
  rewrite visit_entry. destruct (entry f) as [v |]; [| lia].
  unfold assign. case_decide; [lia |].
  rewrite map_size_insert. destruct (result !! key f); unfold Datatypes.id; lia.
Qed.

(** X13: the preview has at most one entry per root field, and every entry
    it has is under the key of a root field that assigns one. *)
Theorem convertToJSON_entries_bounded (fields : list Field) :
  (size (convertToJSON fields) ≤ length fields)%nat
  ∧ ∀ k v, convertToJSON fields !! k = Some v →
           ∃ f, f ∈ fields ∧ key f = k ∧ entry f = Some v.
Proof.
  split.
  - pose proof (visit_all_size fields ∅) as Hsize.
    rewrite map_size_empty in Hsize. exact Hsize.
  - intros k v. rewrite convertToJSON_lookup_lastEntry.
    case_decide; [done |]. unfold lastEntry.
    intros Hlast%last_Some_elem_of.
    apply list_elem_of_omap in Hlast as (f & Hf & Hv).
    exists f. by case_decide.
Qed.

(** ** Ids and draws *)

Lemma run_ids_drawn (events : list Event) :
  ∀ fields, treeIds (run events fields) ⊆+ (events ≫= drawn) ++ treeIds fields.
Proof.
  induction events as [| e events IH]; intros fields; simpl; [done |].
  etransitivity; [apply IH |].
  destruct (step fields e) as [fields' |] eqn:Hstep; simpl.
  - apply step_ids in Hstep.
    transitivity ((events ≫= drawn) ++ drawn e ++ treeIds fields).
    + by apply submseteq_skips_l.
    + solve_submseteq.
  - solve_submseteq.
Qed.

(** X15: every id in a tree a session builds was drawn by [generateId] for
    a creation of that session, and occurs in the tree at most as often as
    it was drawn: no handler copies an id or makes one up. *)
Theorem session_ids_drawn (events : list Event) :
  treeIds (run events []) ⊆+ events ≫= drawn.
Proof.
  pose proof (run_ids_drawn events []) as Hids.
  by rewrite app_nil_r in Hids.
Qed.

(** ** Collapsing and expanding *)

Lemma toggleCollapsed_twice (field : Field) (b : bool) :
  collapsed field = Some b → toggleCollapsed (toggleCollapsed field) = field.
Proof.
  destruct field as [i k t c co]; simpl. intros ->.
  unfold toggleCollapsed, with_collapsed; simpl. by rewrite negb_involutive.
Qed.

Lemma shaped_Nested_collapsed (field : Field) :
  shaped field = true → type field = "Nested" → is_Some (collapsed field).
Proof.
  rewrite shaped_unfold. intros Hs Ht. destruct (children field).
  - by rewrite bool_decide_eq_true_2 in Hs.
  - by rewrite bool_decide_eq_true_2 in Hs.
  - by apply andb_prop in Hs as [[_ ?%bool_decide_eq_true]%andb_prop _].
Qed.

Lemma shaped_children (field : Field) :
  shaped field = true → Forall (λ f, shaped f = true) (children_or_empty field).
Proof.
  rewrite shaped_unfold. unfold children_or_empty.
  destruct (children field); try constructor.
  intros [_ Hs]%andb_prop. by apply forallb_Forall.
Qed.

(** The update a field passes on for a descendant, when it is no deletion. *)
Lemma fieldAction_cons_update (field child u' : Field) (index : nat)
    (path : list nat) (a : Action) :
  rendersChildren field = true →
  children_or_empty field !! index = Some child →
  a ≠ Delete →
  fieldAction child path a = Some u' →
  fieldAction field (index :: path) a = handleNestedFieldUpdate field index u'.
Proof.
  intros Hr Hchild Ha Hu'. simpl. rewrite Hr, Hchild. simpl.
  destruct path; destruct a; try done; by rewrite Hu'.
Qed.

Lemma fieldAction_toggle_twice (path : list nat) :
  ∀ field u,
    shaped field = true →
    fieldAction field path ToggleCollapsed = Some u →
    fieldAction u path ToggleCollapsed = Some field.
Proof.
  induction path as [| index path IH]; intros field u Hs.
  - simpl. case_decide as Ht; [| done]. intros [= <-].
    destruct (shaped_Nested_collapsed field Hs Ht) as [b Hb].
    change (type (toggleCollapsed field)) with (type field).
    rewrite decide_True by done. f_equal. by eapply toggleCollapsed_twice.
  - intros (Hr & child & Hchild & Hcases)%fieldAction_cons_cases.
    destruct Hcases as [(_ & ? & _) | (u' & Hu' & Hupd)]; [done |].
    apply handleNestedFieldUpdate_Some in Hupd as (ch & Hc & ->).
    unfold children_or_empty in Hchild. rewrite Hc in Hchild.
    assert (Hchild_s : shaped child = true).
    { pose proof (shaped_children field Hs) as Hall.
      unfold children_or_empty in Hall. rewrite Hc in Hall.
      eapply Forall_lookup_1 in Hall; eauto. }
    rewrite (fieldAction_cons_update _ u' child index path ToggleCollapsed).
    + unfold handleNestedFieldUpdate. simpl.
      rewrite list_insert_insert_eq, (list_insert_id ch index child) by done.
      destruct field as [i k t c co]; simpl in *. by subst c.
    + destruct field as [i k t c co]; simpl in *. subst c.
      unfold rendersChildren in *. simpl in *.
      by apply andb_prop in Hr as [[-> _]%andb_prop ->].
    + unfold children_or_empty. simpl.
      apply list_lookup_insert_eq. by eapply lookup_lt_Some.
    + done.
    + by apply IH.
Qed.

Lemma step_toggle_twice (fields fields' : list Field) (path : list nat) :
  Forall (λ f, shaped f = true) fields →
  step fields (OnField path ToggleCollapsed) = Some fields' →
  step fields' (OnField path ToggleCollapsed) = Some fields.
Proof.
  intros Hs. destruct path as [| index path]; [done |].
  intros (field & Hfield & Hcases)%step_OnField_cases.
  destruct Hcases as [(_ & ? & _) | (u & Hu & ->)]; [done |].
  apply fieldAction_toggle_twice in Hu;
    [| exact (Forall_lookup_1 _ _ _ _ Hs Hfield)].
  unfold handleFieldUpdate. simpl.
  rewrite list_lookup_insert_eq by (by eapply lookup_lt_Some). simpl.
  assert (Hgo : (fieldAction u path ToggleCollapsed
                   ≫= λ v, Some (<[index:=v]> (<[index:=u]> fields)))
                = Some fields).
  { rewrite Hu. simpl. unfold handleFieldUpdate.
    by rewrite list_insert_insert_eq, list_insert_id. }
  by destruct path.
Qed.

(** X16: in a session, pressing the collapse button of a field twice gives
    back the tree exactly as it was before the first press. *)
Theorem session_toggle_twice (events : list Event) (path : list nat)
    (fields' : list Field) :
  step (run events []) (OnField path ToggleCollapsed) = Some fields' →
  step fields' (OnField path ToggleCollapsed) = Some (run events []).
Proof. apply step_toggle_twice, run_shaped. Qed.

Lemma session_toggle_twice_witness :
  let events :=
    [AddFieldWithType "Nested" "0.b2k9x0c1dq7";
     OnField [0] (AddNestedField "0.zq1x8symk3");
     OnField [0; 0] (TypeChange "Nested")] in
  let fields' :=
    [mkField "b2k9x0c1d" "" "Nested"
       (Value [mkField "zq1x8symk" "" "Nested" (Value []) (Some true)])
       (Some false)] in
  step (run events []) (OnField [0; 0] ToggleCollapsed) = Some fields'
  ∧ step fields' (OnField [0; 0] ToggleCollapsed) = Some (run events []).
Proof.
  split; [reflexivity |].
  apply (session_toggle_twice
           [AddFieldWithType "Nested" "0.b2k9x0c1dq7";
            OnField [0] (AddNestedField "0.zq1x8symk3");
            OnField [0; 0] (TypeChange "Nested")]).
  reflexivity.
Defined.

(** ** The ids [generateId] can give *)

Lemma substring_length (s : string) :
  ∀ n m : nat,
    String.length (substring n m s) = Nat.min m (String.length s - n).
Proof.
  induction s as [| c s IH]; intros [| n] [| m]; simpl;
    rewrite ?IH, ?Nat.sub_0_r; done.
Qed.

Lemma substring_of_prefix (s : string) :
  ∀ n m : nat, substring n m (substring 0 (n + m) s) = substring n m s.
Proof.
  induction s as [| c s IH]; intros [| n] [| m]; simpl; try done.
  f_equal. apply (IH 0%nat m).
Qed.

(** X17: an id has the characters of the draw from index 2 on, nine of them
    at most and fewer when the draw is shorter than eleven characters, and
    it depends on the first eleven characters of the draw only. *)
Theorem generateId_length (r : string) :
  String.length (generateId r) = Nat.min 9 (String.length r - 2)
  ∧ generateId r = generateId (substring 0 11 r).
Proof.
  unfold generateId. split; [apply substring_length |].
  symmetry. apply (substring_of_prefix r 2 9).
Qed.
